(** * Val's C-library shim for Windows ([Library/Val/LibC.h])

    The header defines, when [_WIN32] is defined, three functions with the
    POSIX/C11 names [aligned_alloc], [free] and [fdopen]; each body is one
    call of a primitive of the Microsoft C runtime ([_aligned_malloc],
    [_aligned_free], [_fdopen]).  Otherwise it defines nothing.

    The C runtime is not part of the repository.  It is modelled as an
    interface: a program is a tree of runtime calls ([Prog]), and a [Host]
    gives each call a meaning on some state.  The three functions are
    embedded as programs over that interface, the header as the list of
    external definitions the preprocessor leaves. *)

From Stdlib Require Import NArith ZArith Ascii String Lia.
From stdpp Require Import base option list strings gmap.

Local Open Scope N_scope.

(** ** C values *)

(** [size_t]: an unsigned byte count.  The header does no arithmetic on it,
    so its width does not come into play. *)
Definition size_t : Type := N.
(** [void*] and [FILE*]: an address; the null pointer is address 0. *)
Definition pointer : Type := N.
Definition NULL : pointer := 0.
(** [int]: a file descriptor. *)
Definition int : Type := Z.

(** ** The C runtime's interface

    The calls the host offers, with the parameter names and order of the
    runtime's own declarations.  [crt_malloc] and [crt_free] are the
    runtime's general-purpose [malloc] and [free]: the header never calls
    them, and they are here so that calling them can be told apart from
    calling the aligned family. *)
Inductive crt_call : Type :=
| _aligned_malloc (size alignment : size_t)
| _aligned_free (memblock : pointer)
| _fdopen (fd : int) (mode : string)
| crt_malloc (size : size_t)
| crt_free (memblock : pointer).

Definition crt_result (c : crt_call) : Type :=
  match c with
  | _aligned_malloc _ _ => pointer
  | _aligned_free _ => unit
  | _fdopen _ _ => pointer
  | crt_malloc _ => pointer
  | crt_free _ => unit
  end.

(** The deallocation primitive documented for an allocation primitive's
    blocks. *)
Definition matching_deallocator (c : crt_call) : option (pointer -> crt_call) :=
  match c with
  | _aligned_malloc _ _ => Some _aligned_free
  | crt_malloc _ => Some crt_free
  | _ => None
  end.

(** ** Programs over the runtime *)

(** Straight-line C code that calls the runtime: either it returns, or it
    makes a call and goes on with the call's result. *)
Inductive Prog (R : Type) : Type :=
| Ret (r : R)
| Call (c : crt_call) (k : crt_result c -> Prog R).
Arguments Ret {R} r.
Arguments Call {R} c k.

Fixpoint bind {A B : Type} (p : Prog A) (f : A -> Prog B) : Prog B :=
  match p with
  | Ret a => f a
  | Call c k => Call c (fun x => bind (k x) f)
  end.

#[global] Instance Prog_ret : MRet Prog := @Ret.
#[global] Instance Prog_bind : MBind Prog := fun A B f p => bind p f.

(** One call of the runtime, yielding its result. *)
Definition call (c : crt_call) : Prog (crt_result c) := Call c Ret.

(** [forwards p c f]: [p] is exactly the call [c] followed by returning [f]
    of the call's result; nothing before, nothing after, no branch. *)
Definition forwards {R : Type} (p : Prog R) (c : crt_call) (f : crt_result c -> R) : Prop :=
  exists k, p = Call c k /\ forall x, k x = Ret (f x).

(** The runtime call a program starts with, if it makes one. *)
Definition primitive_of {R : Type} (p : Prog R) : option crt_call :=
  match p with
  | Call c _ => Some c
  | Ret _ => None
  end.

(** ** [LibC.h], the [_WIN32] branch *)

(** [[
    void* aligned_alloc(size_t alignment, size_t size) {
        return _aligned_malloc(size, alignment);
    }
    ]] *)
Definition aligned_alloc (alignment size : size_t) : Prog pointer :=
  r ← call (_aligned_malloc size alignment); mret r.

(** [[
    void free(void* memblock) {
        _aligned_free(memblock);
    }
    ]] *)
Definition free (memblock : pointer) : Prog unit :=
  call (_aligned_free memblock);; mret tt.

(** [[
    FILE* fdopen(int fd, const char* mode) {
        return _fdopen(fd, mode);
    }
    ]] *)
Definition fdopen (fd : int) (mode : string) : Prog pointer :=
  r ← call (_fdopen fd mode); mret r.

(** ** Callers

    A caller's use of the header over time: a sequence of calls of the three
    functions with given arguments.  A call's reply is the pointer it
    returned, or nothing for [free]. *)
Inductive shim_call : Type :=
| Call_aligned_alloc (alignment size : size_t)
| Call_free (memblock : pointer)
| Call_fdopen (fd : int) (mode : string).

Definition perform (c : shim_call) : Prog (option pointer) :=
  match c with
  | Call_aligned_alloc alignment size => p ← aligned_alloc alignment size; mret (Some p)
  | Call_free memblock => free memblock;; mret None
  | Call_fdopen fd mode => stream ← fdopen fd mode; mret (Some stream)
  end.

Fixpoint perform_all (cs : list shim_call) : Prog (list (option pointer)) :=
  match cs with
  | [] => mret []
  | c :: cs' => r ← perform c; rs ← perform_all cs'; mret (r :: rs)
  end.

(** The runtime call the body of the called function makes, with the
    arguments as the body passes them. *)
Definition primitive (c : shim_call) : crt_call :=
  match c with
  | Call_aligned_alloc alignment size => _aligned_malloc size alignment
  | Call_free memblock => _aligned_free memblock
  | Call_fdopen fd mode => _fdopen fd mode
  end.

(** The runtime's general-purpose heap calls. *)
Definition general_heap_call (c : crt_call) : bool :=
  match c with
  | crt_malloc _ | crt_free _ => true
  | _ => false
  end.

(** ** The header as a translation unit *)

(** The C types the header's prototypes use, and the values they hold. *)
Inductive ctype : Type :=
| Tvoid | Tint | Tsize_t | Tptr_void | Tptr_FILE | Tptr_const_char.

Definition denote (t : ctype) : Type :=
  match t with
  | Tvoid => unit
  | Tint => int
  | Tsize_t => size_t
  | Tptr_void => pointer
  | Tptr_FILE => pointer
  | Tptr_const_char => string
  end.

Fixpoint function_type (params : list ctype) (ret : ctype) : Type :=
  match params with
  | [] => Prog (denote ret)
  | t :: ps => denote t -> function_type ps ret
  end.

(** A function definition: return type, name, parameters in order, body. *)
Record function_definition : Type := FunctionDefinition {
  fn_return : ctype;
  fn_name : string;
  fn_params : list (ctype * string);
  fn_body : function_type (fn_params.*1) fn_return
}.

(** What a translation unit can hand to the linker: functions, and objects
    with static storage duration. *)
Inductive external_definition : Type :=
| DefFunction (f : function_definition)
| DefObject (ty : ctype) (name : string).

Definition symbol_of (d : external_definition) : string :=
  match d with
  | DefFunction f => fn_name f
  | DefObject _ name => name
  end.

Definition functions (tu : list external_definition) : list function_definition :=
  omap (fun d => match d with DefFunction f => Some f | DefObject _ _ => None end) tu.

Definition objects (tu : list external_definition) : list string :=
  omap (fun d => match d with DefObject _ name => Some name | DefFunction _ => None end) tu.

Definition symbols (tu : list external_definition) : list string :=
  symbol_of <$> tu.

Definition find_function (name : string) (tu : list external_definition)
  : option function_definition :=
  head (filter (fun f => fn_name f = name) (functions tu)).

(** [#ifdef]: is the macro among the defined ones? *)
Definition ifdef (macro : string) (defined : gset string) : bool :=
  bool_decide (macro ∈ defined).

(** [[
    #ifdef _WIN32
    ... the three definitions ...
    #else

    #endif
    ]]
    The two [#include]s before it bring declarations only.  [win32_branch]
    is the text between [#ifdef] and [#else], [else_branch] the text between
    [#else] and [#endif].  The defined macros are read by [#ifdef] alone:
    replacement of a macro that names a token of the branch text is not
    modelled. *)
Definition win32_branch : list external_definition :=
  [ DefFunction
      {| fn_return := Tptr_void; fn_name := "aligned_alloc";
         fn_params := [(Tsize_t, "alignment"); (Tsize_t, "size")];
         fn_body := aligned_alloc |};
    DefFunction
      {| fn_return := Tvoid; fn_name := "free";
         fn_params := [(Tptr_void, "memblock")];
         fn_body := free |};
    DefFunction
      {| fn_return := Tptr_FILE; fn_name := "fdopen";
         fn_params := [(Tint, "fd"); (Tptr_const_char, "mode")];
         fn_body := fdopen |} ].

Definition else_branch : list external_definition := [].

Definition LibC_h (defined : gset string) : list external_definition :=
  if ifdef "_WIN32" defined then win32_branch else else_branch.

(** ** Hosts and runs *)

(** What a runtime call does: it returns a result and leaves a new state, or
    the process goes down (undefined behaviour, an abort). *)
Inductive outcome (X W : Type) : Type :=
| Returns (x : X) (w : W)
| Crashes.
Arguments Returns {X W} x w.
Arguments Crashes {X W}.

(** A host: the runtime's state, the meaning of its calls, and what can be
    observed of its state. *)
Record Host : Type := {
  world : Type;
  crt : forall c : crt_call, world -> outcome (crt_result c) world;
  (** the [n] bytes from [p] may be written *)
  writable : world -> pointer -> size_t -> Prop;
  (** the descriptor is open *)
  descriptor_open : world -> int -> bool;
  (** [_fdopen] knows the mode string *)
  mode_legal : string -> bool;
  (** the descriptor a stream handle wraps *)
  stream_descriptor : world -> pointer -> option int
}.

Section Run.
Context (H : Host).

(** Run a program on the host from state [w]. *)
Fixpoint run {R : Type} (p : Prog R) (w : world H) : outcome R (world H) :=
  match p with
  | Ret r => Returns r w
  | Call c k =>
      match crt H c w with
      | Returns x w' => run (k x) w'
      | Crashes => Crashes
      end
  end.

(** The runtime calls a run makes, in order. *)
Fixpoint calls {R : Type} (p : Prog R) (w : world H) : list crt_call :=
  match p with
  | Ret _ => []
  | Call c k =>
      c :: match crt H c w with
           | Returns x w' => calls (k x) w'
           | Crashes => []
           end
  end.

(** Run with a budget of runtime calls; [None] when the budget runs out
    before the program is through. *)
Fixpoint run_within {R : Type} (budget : nat) (p : Prog R) (w : world H) {struct p}
  : option (outcome R (world H)) :=
  match p with
  | Ret r => Some (Returns r w)
  | Call c k =>
      match budget with
      | O => None
      | S n =>
          match crt H c w with
          | Returns x w' => run_within n (k x) w'
          | Crashes => Some Crashes
          end
      end
  end.

End Run.

Arguments run H {R} p w.
Arguments calls H {R} p w.
Arguments run_within H {R} budget p w.

(** ** What the callers of the three functions rely on

    Each property is stated for any allocation, release or adaptation routine,
    so that it can be asked both of the runtime's primitive and of the
    header's function over it. *)

Definition is_power_of_two (n : N) : bool :=
  (0 <? n) && (N.land n (n - 1) =? 0).

Section Contracts.
Context (H : Host).

(** The result of an aligned allocation is null, or an address that is a
    multiple of [alignment] with [size] writable bytes. *)
Definition aligned_block (alignment size : size_t) (o : outcome pointer (world H)) : Prop :=
  match o with
  | Returns p w' => p = NULL \/ (p mod alignment = 0 /\ writable H w' p size)
  | Crashes => False
  end.

(** The runtime's [_aligned_malloc], in its own argument order. *)
Definition native_aligned_malloc_contract : Prop :=
  forall w size alignment,
    is_power_of_two alignment = true ->
    aligned_block alignment size (crt H (_aligned_malloc size alignment) w).

(** Whatever [alloc] returns, [dealloc] takes back without a crash. *)
Definition releases (alloc : Prog pointer) (dealloc : pointer -> Prog unit) : Prop :=
  forall w p w',
    run H alloc w = Returns p w' ->
    exists w'', run H (dealloc p) w' = Returns tt w''.

(** Releasing the null pointer returns and changes nothing. *)
Definition null_release_is_noop (dealloc : pointer -> Prog unit) : Prop :=
  forall w, run H (dealloc NULL) w = Returns tt w.

(** An open descriptor with a legal mode yields a non-null stream on that
    descriptor; anything else yields null, and a return in either case. *)
Definition adapts (adapt : int -> string -> Prog pointer) : Prop :=
  forall w fd mode,
    if descriptor_open H w fd && mode_legal H mode
    then exists stream w',
           run H (adapt fd mode) w = Returns stream w'
           /\ stream <> NULL
           /\ stream_descriptor H w' stream = Some fd
    else exists w', run H (adapt fd mode) w = Returns NULL w'.

End Contracts.

(** Two outcomes agree: both crash, or both return the same value in related
    states. *)
Definition outcome_rel {X W1 W2 : Type} (Rw : W1 -> W2 -> Prop)
    (o1 : outcome X W1) (o2 : outcome X W2) : Prop :=
  match o1, o2 with
  | Returns x1 w1, Returns x2 w2 => x1 = x2 /\ Rw w1 w2
  | Crashes, Crashes => True
  | _, _ => False
  end.

(** Two hosts (or one host in two runs) answer every call alike from the
    states [w1] and [w2]. *)
Definition answers_alike (H1 H2 : Host) (Rw : world H1 -> world H2 -> Prop)
    (w1 : world H1) (w2 : world H2) : Prop :=
  forall c, outcome_rel Rw (crt H1 c w1) (crt H2 c w2).

(** They do so from all related states. *)
Definition same_behaviour (H1 H2 : Host) (Rw : world H1 -> world H2 -> Prop) : Prop :=
  forall w1 w2, Rw w1 w2 -> answers_alike H1 H2 Rw w1 w2.

(** ** A reference runtime

    A small executable stand-in for the C runtime, which the repository does
    not contain: a bump allocator whose blocks remember the family that
    allocated them, a descriptor table and a stream table, behaving as the
    runtime's documentation describes the five calls.  It serves to run the
    three functions on concrete inputs and to show that the contracts above
    can be met; no property of the header is proved from it. *)
Module ModelCRT.

Inductive family : Type := Aligned | General.

#[global] Instance family_eq_dec : EqDecision family.
Proof. solve_decision. Defined.

Record state : Type := State {
  heap_blocks : gmap N (size_t * family);
  heap_break : N;
  heap_limit : N;
  open_descriptors : gset Z;
  open_streams : gmap N Z
}.

(** The least multiple of [a] that is at least [x]. *)
Definition align_up (a x : N) : N := (x + a - 1) / a * a.

(** Room the allocator keeps in front of every block for its bookkeeping. *)
Definition header : N := 8.

Definition allocate (fam : family) (alignment size : size_t) (w : state)
  : outcome pointer state :=
  let p := align_up alignment (heap_break w + header) in
  if p + size <=? heap_limit w then
    Returns p
      {| heap_blocks := <[p := (size, fam)]> (heap_blocks w);
         heap_break := p + size;
         heap_limit := heap_limit w;
         open_descriptors := open_descriptors w;
         open_streams := open_streams w |}
  else Returns NULL w.

(** Releasing null does nothing; releasing a block of the family returns it;
    anything else is undefined behaviour. *)
Definition release (fam : family) (p : pointer) (w : state) : outcome unit state :=
  if p =? NULL then Returns tt w
  else
    match heap_blocks w !! p with
    | Some (_, fam') =>
        if decide (fam = fam') then
          Returns tt
            {| heap_blocks := delete p (heap_blocks w);
               heap_break := heap_break w;
               heap_limit := heap_limit w;
               open_descriptors := open_descriptors w;
               open_streams := open_streams w |}
        else Crashes
    | None => Crashes
    end.

Definition legal_mode (mode : string) : bool :=
  match mode with
  | String c rest =>
      bool_decide (c ∈ ["r"; "w"; "a"]%char)
      && bool_decide (rest ∈ [""; "+"; "b"; "t"; "+b"; "b+"; "+t"; "t+"]%string)
  | EmptyString => false
  end.

Definition open_stream (fd : int) (mode : string) (w : state) : outcome pointer state :=
  if bool_decide (fd ∈ open_descriptors w) && legal_mode mode then
    let stream := N.succ (N.of_nat (size (open_streams w))) in
    Returns stream
      {| heap_blocks := heap_blocks w;
         heap_break := heap_break w;
         heap_limit := heap_limit w;
         open_descriptors := open_descriptors w;
         open_streams := <[stream := fd]> (open_streams w) |}
  else Returns NULL w.

Definition step (c : crt_call) : state -> outcome (crt_result c) state :=
  match c with
  | _aligned_malloc size alignment => fun w =>
      if is_power_of_two alignment then allocate Aligned alignment size w
      else Returns NULL w
  | _aligned_free memblock => release Aligned memblock
  | _fdopen fd mode => open_stream fd mode
  | crt_malloc size => allocate General 16 size
  | crt_free memblock => release General memblock
  end.

Definition host : Host :=
  {| world := state;
     crt := step;
     writable := fun w p n =>
       exists size fam, heap_blocks w !! p = Some (size, fam) /\ n <= size;
     descriptor_open := fun w fd => bool_decide (fd ∈ open_descriptors w);
     mode_legal := legal_mode;
     stream_descriptor := fun w stream => open_streams w !! stream |}.

(** A fresh process: an empty heap from address 4096 with 1 MiB of room, the
    three standard descriptors open, no stream adapted yet. *)
Definition boot : state :=
  {| heap_blocks := ∅;
     heap_break := 4096;
     heap_limit := 4096 + 1048576;
     open_descriptors := {[ 0%Z; 1%Z; 2%Z ]};
     open_streams := ∅ |}.

End ModelCRT.

(** ** A runtime that checks its parameters

    The reference runtime, with [_fdopen] as the C runtime's documentation
    describes its default behaviour: a descriptor that is not open, or a mode
    string it does not know, goes to the invalid-parameter handler, which
    ends the process; and the stream table has room for [streams_max]
    streams, beyond which [_fdopen] returns null.  The other calls are those
    of the reference runtime. *)
Module StrictCRT.

Definition open_stream (streams_max : nat) (fd : int) (mode : string)
    (w : ModelCRT.state) : outcome pointer ModelCRT.state :=
  if bool_decide (fd ∈ ModelCRT.open_descriptors w) && ModelCRT.legal_mode mode then
    if decide (size (ModelCRT.open_streams w) < streams_max)%nat
    then ModelCRT.open_stream fd mode w
    else Returns NULL w
  else Crashes.

Definition step (streams_max : nat) (c : crt_call)
  : ModelCRT.state -> outcome (crt_result c) ModelCRT.state :=
  match c with
  | _aligned_malloc size alignment => ModelCRT.step (_aligned_malloc size alignment)
  | _aligned_free memblock => ModelCRT.step (_aligned_free memblock)
  | _fdopen fd mode => open_stream streams_max fd mode
  | crt_malloc size => ModelCRT.step (crt_malloc size)
  | crt_free memblock => ModelCRT.step (crt_free memblock)
  end.

Definition host (streams_max : nat) : Host :=
  {| world := ModelCRT.state;
     crt := step streams_max;
     writable := writable ModelCRT.host;
     descriptor_open := descriptor_open ModelCRT.host;
     mode_legal := mode_legal ModelCRT.host;
     stream_descriptor := stream_descriptor ModelCRT.host |}.

End StrictCRT.

(** * Properties *)

(** ** Runs of programs *)

Section RunFacts.
Context (H : Host).

Lemma run_bind {A B : Type} (p : Prog A) (f : A -> Prog B) (w : world H) :
  run H (bind p f) w =
  match run H p w with
  | Returns a w' => run H (f a) w'
  | Crashes => Crashes
  end.
Proof.
  revert w. induction p as [a | c k IH]; intros w; simpl.
  - reflexivity.
  - destruct (crt H c w) as [x w' |]; [apply IH | reflexivity].
Qed.

Lemma calls_bind {A B : Type} (p : Prog A) (f : A -> Prog B) (w : world H) :
  calls H (bind p f) w =
  calls H p w ++
  match run H p w with
  | Returns a w' => calls H (f a) w'
  | Crashes => []
  end.
Proof.
  revert w. induction p as [a | c k IH]; intros w; simpl.
  - reflexivity.
  - f_equal. destruct (crt H c w) as [x w' |]; [apply IH | reflexivity].
Qed.

(** A single call runs as the runtime answers it. *)
Lemma run_call (c : crt_call) (w : world H) : run H (call c) w = crt H c w.
Proof. unfold call. simpl. now destruct (crt H c w). Qed.

Lemma calls_call (c : crt_call) (w : world H) : calls H (call c) w = [c].
Proof. unfold call. simpl. now destruct (crt H c w). Qed.

Lemma run_forwards {R : Type} (p : Prog R) c f (w : world H) :
  forwards p c f ->
  run H p w =
  match crt H c w with
  | Returns x w' => Returns (f x) w'
  | Crashes => Crashes
  end.
Proof.
  intros (k & -> & Hk). simpl.
  destruct (crt H c w) as [x w' |]; [now rewrite Hk | reflexivity].
Qed.

Lemma calls_forwards {R : Type} (p : Prog R) c f (w : world H) :
  forwards p c f -> calls H p w = [c].
Proof.
  intros (k & -> & Hk). simpl.
  destruct (crt H c w) as [x w' |]; [now rewrite Hk | reflexivity].
Qed.

(** The budget a run needs is the number of calls it makes: with that many
    it finishes with the outcome of [run], with fewer it does not finish. *)
Lemma run_within_enough {R : Type} (p : Prog R) (w : world H) (n : nat) :
  (length (calls H p w) <= n)%nat -> run_within H n p w = Some (run H p w).
Proof.
  revert w n. induction p as [r | c k IH]; intros w n Hn; simpl in *.
  - reflexivity.
  - destruct n as [| n]; [lia |].
    destruct (crt H c w) as [x w' |]; [apply IH; simpl in Hn; lia | reflexivity].
Qed.

Lemma run_within_short {R : Type} (p : Prog R) (w : world H) (n : nat) :
  (n < length (calls H p w))%nat -> run_within H n p w = None.
Proof.
  revert w n. induction p as [r | c k IH]; intros w n Hn; simpl in *.
  - lia.
  - destruct n as [| n]; [reflexivity |].
    destruct (crt H c w) as [x w' |]; simpl in Hn; [apply IH; lia | lia].
Qed.

End RunFacts.

(** Hosts that answer alike run every program alike. *)
Lemma run_simulation (H1 H2 : Host) (Rw : world H1 -> world H2 -> Prop) :
  same_behaviour H1 H2 Rw ->
  forall {R : Type} (p : Prog R) w1 w2,
    Rw w1 w2 -> outcome_rel Rw (run H1 p w1) (run H2 p w2).
Proof.
  intros Hsim R p. induction p as [r | c k IH]; intros w1 w2 Hw; simpl.
  - split; [reflexivity | exact Hw].
  - specialize (Hsim w1 w2 Hw c).
    destruct (crt H1 c w1) as [x1 w1' |], (crt H2 c w2) as [x2 w2' |];
      simpl in Hsim; try contradiction; [| exact I].
    destruct Hsim as [<- Hw']. now apply IH.
Qed.

(** ** The three bodies *)

Lemma aligned_alloc_forwards (alignment size : size_t) :
  forwards (aligned_alloc alignment size) (_aligned_malloc size alignment) id.
Proof. eexists. split; [reflexivity | intros x; reflexivity]. Qed.

Lemma free_forwards (memblock : pointer) :
  forwards (free memblock) (_aligned_free memblock) (fun _ => tt).
Proof. eexists. split; [reflexivity | intros x; reflexivity]. Qed.

Lemma fdopen_forwards (fd : int) (mode : string) :
  forwards (fdopen fd mode) (_fdopen fd mode) id.
Proof. eexists. split; [reflexivity | intros x; reflexivity]. Qed.

Lemma outcome_eta {X W : Type} (o : outcome X W) :
  match o with Returns x w => Returns x w | Crashes => Crashes end = o.
Proof. now destruct o. Qed.

Lemma outcome_unit_eta {W : Type} (o : outcome unit W) :
  match o with Returns _ w => Returns tt w | Crashes => Crashes end = o.
Proof. destruct o as [[] w |]; reflexivity. Qed.

Lemma run_aligned_alloc (H : Host) (alignment size : size_t) (w : world H) :
  run H (aligned_alloc alignment size) w = crt H (_aligned_malloc size alignment) w.
Proof. rewrite (run_forwards H _ _ _ w (aligned_alloc_forwards _ _)). apply outcome_eta. Qed.

Lemma run_free (H : Host) (memblock : pointer) (w : world H) :
  run H (free memblock) w = crt H (_aligned_free memblock) w.
Proof. rewrite (run_forwards H _ _ _ w (free_forwards _)). apply outcome_unit_eta. Qed.

Lemma run_fdopen (H : Host) (fd : int) (mode : string) (w : world H) :
  run H (fdopen fd mode) w = crt H (_fdopen fd mode) w.
Proof. rewrite (run_forwards H _ _ _ w (fdopen_forwards _ _)). apply outcome_eta. Qed.

(** A host behaves like itself. *)
Lemma same_behaviour_refl (H : Host) : same_behaviour H H eq.
Proof.
  intros w1 w2 <- c. destruct (crt H c w1) as [x w' |]; simpl; auto.
Qed.

(** ** The reference runtime meets the contracts *)

Module ModelCRTFacts.
Import ModelCRT.

Lemma align_up_multiple (a x : N) : align_up a x mod a = 0.
Proof. unfold align_up. apply N.Div0.mod_mul. Qed.

Lemma allocate_block (fam : family) (alignment size : size_t) (w w' : state) (p : pointer) :
  allocate fam alignment size w = Returns p w' ->
  (p = NULL /\ w' = w)
  \/ (p = align_up alignment (heap_break w + header)
      /\ heap_blocks w' !! p = Some (size, fam)).
Proof.
  unfold allocate.
  destruct (_ <=? _); intros [= <- <-]; [right | left]; split; try reflexivity.
  simpl. apply lookup_insert_eq.
Qed.

Lemma release_block (fam : family) (p : pointer) (size : size_t) (w : state) :
  heap_blocks w !! p = Some (size, fam) ->
  exists w', release fam p w = Returns tt w'.
Proof.
  intros Hp. unfold release. destruct (p =? NULL); [eauto |].
  rewrite Hp. rewrite decide_True by reflexivity. eauto.
Qed.

Lemma aligned_malloc_contract : native_aligned_malloc_contract host.
Proof.
  intros w size alignment Hpow. simpl. rewrite Hpow.
  destruct (allocate Aligned alignment size w) as [p w' |] eqn:Halloc.
  - apply allocate_block in Halloc as [[-> _] | [-> Hblock]]; [now left | right].
    split; [apply align_up_multiple |].
    exists size, Aligned. split; [exact Hblock | lia].
  - unfold allocate in Halloc. now destruct (_ <=? _).
Qed.

Lemma aligned_family_pairs (size alignment : size_t) :
  releases host (call (_aligned_malloc size alignment))
                (fun p => call (_aligned_free p)).
Proof.
  intros w p w'. rewrite (run_call host (_aligned_malloc size alignment)). simpl.
  intros Halloc.
  assert (Hcases : (p = NULL /\ w' = w) \/ exists sz, heap_blocks w' !! p = Some (sz, Aligned)).
  { destruct (is_power_of_two alignment).
    - apply allocate_block in Halloc as [? | [_ ?]]; eauto.
    - injection Halloc as <- <-. now left. }
  destruct Hcases as [[-> ->] | [sz Hblock]].
  - exists w. reflexivity.
  - destruct (release_block Aligned p sz w' Hblock) as [w'' ->]. now exists w''.
Qed.

Lemma aligned_free_null : null_release_is_noop host (fun p => call (_aligned_free p)).
Proof. intros w. cbv beta. rewrite (run_call host (_aligned_free NULL)). reflexivity. Qed.

Lemma fdopen_contract : adapts host (fun fd mode => call (_fdopen fd mode)).
Proof.
  intros w fd mode. cbv beta. rewrite (run_call host (_fdopen fd mode)). simpl.
  unfold open_stream.
  destruct (bool_decide _ && legal_mode mode).
  - eexists _, _. split; [reflexivity |]. split; [unfold NULL; lia |].
    simpl. apply lookup_insert_eq.
  - now exists w.
Qed.

End ModelCRTFacts.

(** ** Sequences of calls *)

Lemma calls_perform (H : Host) (c : shim_call) (w : world H) :
  length (calls H (perform c) w) = 1%nat.
Proof.
  destruct c as [alignment size | memblock | fd mode]; simpl;
    now destruct (crt H _ w).
Qed.

(** A sequence of calls of the three functions makes at most as many runtime
    calls as it is long. *)
Lemma calls_perform_all (H : Host) (cs : list shim_call) (w : world H) :
  (length (calls H (perform_all cs) w) <= length cs)%nat.
Proof.
  revert w. induction cs as [| c cs IH]; intros w; [simpl; lia |].
  change (perform_all (c :: cs))
    with (bind (perform c) (fun r => bind (perform_all cs) (fun rs => Ret (r :: rs)))).
  rewrite calls_bind, length_app, calls_perform.
  destruct (run H (perform c) w) as [r w' |]; [| simpl; lia].
  rewrite calls_bind, length_app.
  specialize (IH w').
  destruct (run H (perform_all cs) w') as [rs w'' |]; simpl; lia.
Qed.

(** ** Aligned allocation *)

(** C1.  For every alignment and size, [aligned_alloc alignment size] is one
    call of the runtime's [_aligned_malloc] with the two arguments in that
    primitive's order (size first, alignment second) and returns that call's
    result; on every host and state its outcome is that call's outcome.  The
    function is defined with the C11 prototype: [void*] result, [alignment]
    the first parameter and [size] the second, both [size_t]. *)
Theorem aligned_alloc_is_aligned_malloc (alignment size : size_t) :
  forwards (aligned_alloc alignment size) (_aligned_malloc size alignment) id
  /\ (forall (H : Host) (w : world H),
        run H (aligned_alloc alignment size) w
        = crt H (_aligned_malloc size alignment) w)
  /\ find_function "aligned_alloc" win32_branch
     = Some {| fn_return := Tptr_void; fn_name := "aligned_alloc";
               fn_params := [(Tsize_t, "alignment"); (Tsize_t, "size")];
               fn_body := aligned_alloc |}.
Proof.
  split; [apply aligned_alloc_forwards |].
  split; [intros H w; apply run_aligned_alloc | reflexivity].
Qed.

(** On the reference runtime [aligned_alloc(64, 256)] is the call
    [_aligned_malloc(256, 64)]. *)
Example aligned_alloc_calls_on_boot :
  calls ModelCRT.host (aligned_alloc 64 256) ModelCRT.boot = [_aligned_malloc 256 64]
  /\ exists w', run ModelCRT.host (aligned_alloc 64 256) ModelCRT.boot = Returns 4160 w'.
Proof. split; [| eexists]; vm_compute; reflexivity. Qed.

(** C4.  On a host whose [_aligned_malloc] returns, for a power-of-two
    alignment, null or an address that is a multiple of the alignment with
    the requested bytes writable, [aligned_alloc alignment size] returns, for
    every power-of-two alignment and every size, null or a pointer whose
    address modulo [alignment] is zero and which is writable for [size]
    bytes. *)
Theorem aligned_alloc_null_or_aligned (H : Host) (w : world H) (alignment size : size_t) :
  native_aligned_malloc_contract H ->
  is_power_of_two alignment = true ->
  aligned_block H alignment size (run H (aligned_alloc alignment size) w).
Proof.
  intros Hnative Hpow. rewrite run_aligned_alloc. now apply Hnative.
Qed.

(** [aligned_alloc(64, 256)] on the reference runtime. *)
Lemma aligned_alloc_null_or_aligned_witness :
  is_power_of_two 64 = true
  /\ aligned_block ModelCRT.host 64 256
       (run ModelCRT.host (aligned_alloc 64 256) ModelCRT.boot).
Proof.
  split; [reflexivity |].
  apply (aligned_alloc_null_or_aligned ModelCRT.host ModelCRT.boot 64 256).
  - exact ModelCRTFacts.aligned_malloc_contract.
  - reflexivity.
Defined.

(** The scenario of the specification: the pointer is not null, a multiple of
    64, and [free] takes it back. *)
Example aligned_alloc_64_256 :
  exists p w',
    run ModelCRT.host (aligned_alloc 64 256) ModelCRT.boot = Returns p w'
    /\ p <> NULL /\ p mod 64 = 0
    /\ exists w'', run ModelCRT.host (free p) w' = Returns tt w''.
Proof.
  eexists _, _. split; [vm_compute; reflexivity |].
  split; [discriminate |]. split; [reflexivity |].
  eexists. vm_compute. reflexivity.
Qed.

(** The order of the arguments matters: the primitive given 256 as its size
    and 64 as its alignment does not produce a block aligned to 256. *)
Example argument_order_matters :
  ~ aligned_block ModelCRT.host 256 64
      (crt ModelCRT.host (_aligned_malloc 256 64) ModelCRT.boot).
Proof.
  vm_compute. intros [Hnull | [Hmod _]]; discriminate.
Qed.

(** ** Release *)

(** C2.  [free] is one call of the deallocation primitive that the runtime
    documents for the blocks of the allocation primitive [aligned_alloc]
    calls, and that primitive is not the runtime's general [free].  Hence, on
    a host where [_aligned_free] takes back what [_aligned_malloc] returned,
    [free] takes back whatever [aligned_alloc] returned. *)
Theorem free_releases_aligned_alloc (H : Host) (alignment size : size_t) :
  releases H (call (_aligned_malloc size alignment)) (fun p => call (_aligned_free p)) ->
  releases H (aligned_alloc alignment size) free
  /\ exists c dealloc,
       primitive_of (aligned_alloc alignment size) = Some c
       /\ matching_deallocator c = Some dealloc
       /\ forall p, forwards (free p) (dealloc p) (fun _ => tt)
                    /\ dealloc p <> crt_free p.
Proof.
  intros Hnative. split.
  - intros w p w' Halloc. rewrite run_aligned_alloc in Halloc.
    destruct (Hnative w p w') as [w'' Hfree].
    + now rewrite (run_call H (_aligned_malloc size alignment)).
    + exists w''. cbv beta in Hfree.
      rewrite (run_call H (_aligned_free p)) in Hfree.
      now rewrite run_free.
  - exists (_aligned_malloc size alignment), _aligned_free.
    repeat split; [apply free_forwards | discriminate].
Qed.

Lemma free_releases_aligned_alloc_witness :
  releases ModelCRT.host (aligned_alloc 64 256) free
  /\ exists c dealloc,
       primitive_of (aligned_alloc 64 256) = Some c
       /\ matching_deallocator c = Some dealloc
       /\ forall p, forwards (free p) (dealloc p) (fun _ => tt)
                    /\ dealloc p <> crt_free p.
Proof.
  apply (free_releases_aligned_alloc ModelCRT.host 64 256).
  exact (ModelCRTFacts.aligned_family_pairs 256 64).
Defined.

(** C3.  For every pointer, wherever it came from, [free] is one call of
    [_aligned_free] on it: no run of [free] calls the runtime's general
    [free], and a block taken from the runtime's [malloc] and passed to
    [free] goes to [_aligned_free] as well.  The definition the header gives
    under the name ["free"] is this function. *)
Theorem free_is_always_aligned_free (memblock : pointer) :
  forwards (free memblock) (_aligned_free memblock) (fun _ => tt)
  /\ (forall (H : Host) (w : world H),
        calls H (free memblock) w = [_aligned_free memblock]
        /\ forall q, crt_free q ∉ calls H (free memblock) w)
  /\ (forall (H : Host) (w : world H) (size : size_t),
        calls H (p ← call (crt_malloc size); free p) w
        = crt_malloc size ::
          match crt H (crt_malloc size) w with
          | Returns p _ => [_aligned_free p]
          | Crashes => []
          end
        /\ forall q, crt_free q ∉ calls H (p ← call (crt_malloc size); free p) w)
  /\ find_function "free" win32_branch
     = Some {| fn_return := Tvoid; fn_name := "free";
               fn_params := [(Tptr_void, "memblock")];
               fn_body := free |}.
Proof.
  split; [apply free_forwards |].
  assert (Hone : forall (H : Host) (w : world H) p, calls H (free p) w = [_aligned_free p]).
  { intros H w p. apply (calls_forwards H _ _ _ w (free_forwards p)). }
  split; [| split; [| reflexivity]].
  - intros H w. rewrite Hone. split; [reflexivity |].
    intros q Hin. apply list_elem_of_singleton in Hin. discriminate.
  - intros H w size.
    assert (Hseq : calls H (p ← call (crt_malloc size); free p) w
                   = crt_malloc size ::
                     match crt H (crt_malloc size) w with
                     | Returns p _ => [_aligned_free p]
                     | Crashes => []
                     end).
    { unfold mbind, Prog_bind.
      rewrite calls_bind, (calls_call H (crt_malloc size)), (run_call H (crt_malloc size)).
      destruct (crt H (crt_malloc size) w) as [p w' |]; [| reflexivity].
      now rewrite Hone. }
    split; [exact Hseq |].
    intros q. rewrite Hseq. intros Hin.
    apply elem_of_cons in Hin as [Heq | Hin]; [discriminate |].
    destruct (crt H (crt_malloc size) w) as [p w' |].
    + apply list_elem_of_singleton in Hin. discriminate.
    + now apply elem_of_nil in Hin.
Qed.

(** On the reference runtime a block of the general allocator passed to
    [free] is undefined behaviour, because it reaches [_aligned_free]. *)
Example free_of_malloc_block :
  calls ModelCRT.host (p ← call (crt_malloc 100); free p) ModelCRT.boot
  = [crt_malloc 100; _aligned_free 4112]
  /\ run ModelCRT.host (p ← call (crt_malloc 100); free p) ModelCRT.boot = Crashes.
Proof. split; vm_compute; reflexivity. Qed.

(** C5.  On a host where [_aligned_free] of the null pointer returns and
    changes nothing, [free] of the null pointer returns and changes nothing.
    On every host and for every pointer, [free] has no outcome of its own
    beside the primitive's, the only value it can return is the unit value,
    and its declared return type is [void]: there is nothing through which a
    failure could be reported. *)
Theorem free_null_is_noop_and_silent (H : Host) :
  null_release_is_noop H (fun p => call (_aligned_free p)) ->
  null_release_is_noop H free
  /\ (forall memblock w,
        run H (free memblock) w = crt H (_aligned_free memblock) w)
  /\ (forall memblock w r w', run H (free memblock) w = Returns r w' -> r = tt)
  /\ fn_return <$> find_function "free" win32_branch = Some Tvoid.
Proof.
  intros Hnative. repeat split.
  - intros w. specialize (Hnative w). cbv beta in Hnative.
    rewrite (run_call H (_aligned_free NULL)) in Hnative.
    now rewrite run_free.
  - intros memblock w. apply run_free.
  - intros memblock w [] w' _. reflexivity.
Qed.

Lemma free_null_is_noop_and_silent_witness :
  null_release_is_noop ModelCRT.host free
  /\ (forall memblock w,
        run ModelCRT.host (free memblock) w
        = crt ModelCRT.host (_aligned_free memblock) w)
  /\ (forall memblock w r w',
        run ModelCRT.host (free memblock) w = Returns r w' -> r = tt)
  /\ fn_return <$> find_function "free" win32_branch = Some Tvoid.
Proof.
  apply (free_null_is_noop_and_silent ModelCRT.host).
  exact ModelCRTFacts.aligned_free_null.
Defined.

Example free_null_on_boot :
  run ModelCRT.host (free NULL) ModelCRT.boot = Returns tt ModelCRT.boot.
Proof. vm_compute. reflexivity. Qed.

(** ** Streams over descriptors *)

(** C6.  [fdopen] checks neither the descriptor nor the mode: it is the one
    call [_fdopen fd mode], and on every host and state its outcome is that
    call's outcome.  It returns null, in the state the primitive left, when
    the primitive returns null; it returns the primitive's stream, in the
    state in which the primitive put it on the descriptor, when the primitive
    returns one; it crashes when the primitive crashes.  Hence it answers a closed
    descriptor or an illegal mode with null and without a crash, and an open
    descriptor with a legal mode with a non-null stream on it, on exactly the
    hosts whose [_fdopen] does. *)
Theorem fdopen_is_the_fdopen_of_the_host (H : Host) :
  (forall w fd mode,
      forwards (fdopen fd mode) (_fdopen fd mode) id
      /\ run H (fdopen fd mode) w = crt H (_fdopen fd mode) w
      /\ (forall w',
            crt H (_fdopen fd mode) w = Returns NULL w' ->
            run H (fdopen fd mode) w = Returns NULL w')
      /\ (forall stream w',
            crt H (_fdopen fd mode) w = Returns stream w' ->
            run H (fdopen fd mode) w = Returns stream w')
      /\ (crt H (_fdopen fd mode) w = Crashes ->
          run H (fdopen fd mode) w = Crashes))
  /\ (adapts H fdopen <-> adapts H (fun fd mode => call (_fdopen fd mode))).
Proof.
  split.
  - intros w fd mode. split; [apply fdopen_forwards |].
    rewrite run_fdopen. split; [reflexivity |].
    split; [intros w' Hnull; exact Hnull |].
    split; [intros stream w' Hret; exact Hret | intros Hcrash; exact Hcrash].
  - split; intros Had w fd mode; specialize (Had w fd mode); cbv beta in *.
    + rewrite run_fdopen in Had.
      rewrite (run_call H (_fdopen fd mode)). exact Had.
    + rewrite (run_call H (_fdopen fd mode)) in Had.
      rewrite run_fdopen. exact Had.
Qed.

(** The claim as the specification words it, that [fdopen] answers every
    closed descriptor and every illegal mode with null and never a crash, and
    every open descriptor with a legal mode with a non-null stream, does not
    hold of the function on every host.  On the runtime that checks its
    parameters, a descriptor that is not open and a mode that is not legal
    each end the process; and with the stream table full, an open descriptor
    with a legal mode gets null. *)
Lemma fdopen_crashes_or_fails_with_the_host :
  (descriptor_open (StrictCRT.host 512) ModelCRT.boot 7%Z = false
   /\ run (StrictCRT.host 512) (fdopen 7%Z "w") ModelCRT.boot = Crashes)
  /\ (mode_legal (StrictCRT.host 512) "x" = false
      /\ run (StrictCRT.host 512) (fdopen 1%Z "x") ModelCRT.boot = Crashes)
  /\ (exists w1,
        run (StrictCRT.host 1) (fdopen 1%Z "w") ModelCRT.boot = Returns 1 w1
        /\ descriptor_open (StrictCRT.host 1) w1 2%Z = true
        /\ mode_legal (StrictCRT.host 1) "w" = true
        /\ run (StrictCRT.host 1) (fdopen 2%Z "w") w1 = Returns NULL w1)
  /\ ~ adapts (StrictCRT.host 512) fdopen
  /\ ~ (forall H : Host, adapts H fdopen).
Proof.
  assert (Hstrict : ~ adapts (StrictCRT.host 512) fdopen).
  { intros Had. specialize (Had ModelCRT.boot 7%Z "w"%string).
    vm_compute in Had. destruct Had as [w' Hrun]. discriminate. }
  split; [split; vm_compute; reflexivity |].
  split; [split; vm_compute; reflexivity |].
  split; [eexists; repeat split; vm_compute; reflexivity |].
  split; [exact Hstrict |].
  intros Hall. exact (Hstrict (Hall (StrictCRT.host 512))).
Qed.

(** The reference runtime is a host on which [fdopen] does answer as the
    specification words it. *)
Example fdopen_adapts_on_the_reference_runtime : adapts ModelCRT.host fdopen.
Proof.
  intros w fd mode. rewrite run_fdopen.
  pose proof (ModelCRTFacts.fdopen_contract w fd mode) as Hnative.
  cbv beta in Hnative. now rewrite (run_call ModelCRT.host (_fdopen fd mode)) in Hnative.
Qed.

(** Standard output adapted for writing; a descriptor that is not open; a
    mode string the runtime does not know. *)
Example fdopen_on_boot :
  (exists stream w',
      run ModelCRT.host (fdopen 1%Z "w") ModelCRT.boot = Returns stream w'
      /\ stream <> NULL /\ stream_descriptor ModelCRT.host w' stream = Some 1%Z)
  /\ run ModelCRT.host (fdopen 7%Z "w") ModelCRT.boot = Returns NULL ModelCRT.boot
  /\ run ModelCRT.host (fdopen 1%Z "x") ModelCRT.boot = Returns NULL ModelCRT.boot.
Proof.
  split; [| split; vm_compute; reflexivity].
  eexists _, _. split; [vm_compute; reflexivity |].
  split; [discriminate | vm_compute; reflexivity].
Qed.

(** ** The three functions together *)

(** C7.  On every host and state, each of the three functions has exactly
    the outcome of its primitive: the same result, the same state after,
    a crash exactly when the primitive crashes; and its run is that one call,
    not repeated and not followed by another.  In particular a null result
    of the primitive is the function's result, in the state the primitive
    left. *)
Theorem results_pass_through (H : Host) (w : world H) :
  (forall alignment size,
      run H (aligned_alloc alignment size) w = crt H (_aligned_malloc size alignment) w
      /\ calls H (aligned_alloc alignment size) w = [_aligned_malloc size alignment])
  /\ (forall memblock,
        run H (free memblock) w = crt H (_aligned_free memblock) w
        /\ calls H (free memblock) w = [_aligned_free memblock])
  /\ (forall fd mode,
        run H (fdopen fd mode) w = crt H (_fdopen fd mode) w
        /\ calls H (fdopen fd mode) w = [_fdopen fd mode])
  /\ (forall alignment size w',
        crt H (_aligned_malloc size alignment) w = Returns NULL w' ->
        run H (aligned_alloc alignment size) w = Returns NULL w')
  /\ (forall fd mode w',
        crt H (_fdopen fd mode) w = Returns NULL w' ->
        run H (fdopen fd mode) w = Returns NULL w').
Proof.
  split; [| split; [| split; [| split]]].
  - intros alignment size. split; [apply run_aligned_alloc |].
    eapply calls_forwards, aligned_alloc_forwards.
  - intros memblock. split; [apply run_free |].
    eapply calls_forwards, free_forwards.
  - intros fd mode. split; [apply run_fdopen |].
    eapply calls_forwards, fdopen_forwards.
  - intros alignment size w' Hnull. rewrite run_aligned_alloc. exact Hnull.
  - intros fd mode w' Hnull. rewrite run_fdopen. exact Hnull.
Qed.

(** C8.  The header defines no object, with or without [_WIN32]; and what
    the three functions return is determined by their arguments and the
    host's answers: when two hosts, or one host in two runs, answer every
    call alike from related states, then from related states each function
    called with the same arguments, and every sequence of calls of the three
    functions with the same arguments, returns the same values (or crashes
    at the same call) and leaves related states. *)
Theorem shim_is_stateless (H1 H2 : Host) (Rw : world H1 -> world H2 -> Prop)
    (w1 : world H1) (w2 : world H2) :
  same_behaviour H1 H2 Rw ->
  Rw w1 w2 ->
  (forall defined, objects (LibC_h defined) = [])
  /\ (forall alignment size,
        outcome_rel Rw (run H1 (aligned_alloc alignment size) w1)
                       (run H2 (aligned_alloc alignment size) w2))
  /\ (forall memblock,
        outcome_rel Rw (run H1 (free memblock) w1) (run H2 (free memblock) w2))
  /\ (forall fd mode,
        outcome_rel Rw (run H1 (fdopen fd mode) w1) (run H2 (fdopen fd mode) w2))
  /\ (forall cs,
        outcome_rel Rw (run H1 (perform_all cs) w1) (run H2 (perform_all cs) w2)).
Proof.
  intros Hsame Hw.
  pose proof (Hsame w1 w2 Hw) as Halike.
  split; [| split; [| split; [| split]]].
  - intros defined. unfold LibC_h. now case (ifdef "_WIN32" defined).
  - intros alignment size. rewrite !run_aligned_alloc.
    apply (Halike (_aligned_malloc size alignment)).
  - intros memblock. rewrite !run_free. apply (Halike (_aligned_free memblock)).
  - intros fd mode. rewrite !run_fdopen. apply (Halike (_fdopen fd mode)).
  - intros cs. now apply run_simulation.
Qed.

(** Two runs of the reference runtime from a fresh process: allocate, adapt
    standard output, release. *)
Lemma shim_is_stateless_witness :
  let script := [Call_aligned_alloc 64 256; Call_fdopen 1%Z "w"; Call_free 4160] in
  outcome_rel eq (run ModelCRT.host (perform_all script) ModelCRT.boot)
                 (run ModelCRT.host (perform_all script) ModelCRT.boot).
Proof.
  intros script.
  apply (shim_is_stateless ModelCRT.host ModelCRT.host eq ModelCRT.boot ModelCRT.boot).
  - exact (same_behaviour_refl ModelCRT.host).
  - reflexivity.
Defined.

Example script_on_boot :
  exists w',
    run ModelCRT.host
        (perform_all [Call_aligned_alloc 64 256; Call_fdopen 1%Z "w"; Call_free 4160])
        ModelCRT.boot
    = Returns [Some 4160; Some 1; None] w'.
Proof. eexists. vm_compute. reflexivity. Qed.

(** C9.  When [_WIN32] is not defined the header defines nothing: the text
    of the other branch is empty, so there is no symbol, and none of the
    three names has a definition. *)
Theorem nothing_without_WIN32 (defined : gset string) :
  ifdef "_WIN32" defined = false ->
  LibC_h defined = []
  /\ else_branch = []
  /\ symbols (LibC_h defined) = []
  /\ find_function "aligned_alloc" (LibC_h defined) = None
  /\ find_function "free" (LibC_h defined) = None
  /\ find_function "fdopen" (LibC_h defined) = None.
Proof.
  intros Hndef. unfold LibC_h. rewrite Hndef. repeat split.
Qed.

(** A build for Linux on x86-64. *)
Lemma nothing_without_WIN32_witness :
  ifdef "_WIN32" {[ "__linux__"; "__x86_64__" ]} = false
  /\ LibC_h {[ "__linux__"; "__x86_64__" ]} = [].
Proof.
  split; [vm_compute; reflexivity |].
  apply (nothing_without_WIN32 {[ "__linux__"; "__x86_64__" ]}).
  vm_compute. reflexivity.
Defined.

(** With [_WIN32] defined the three names are there, in the order of the
    text. *)
Example symbols_with_WIN32 :
  symbols (LibC_h {[ "_WIN32"; "_WIN64" ]}) = ["aligned_alloc"; "free"; "fdopen"].
Proof. vm_compute. reflexivity. Qed.

(** C10.  Every call of each of the three functions ends: its body is one
    runtime call followed by the return, with no branch, loop or recursion,
    so on every host a budget of one runtime call is enough for the run to
    finish with its outcome, and a budget of none is not.  A sequence of [n]
    calls of the three functions finishes within [n] runtime calls. *)
Theorem each_function_is_one_call (H : Host) (w : world H) :
  (forall alignment size,
      forwards (aligned_alloc alignment size) (_aligned_malloc size alignment) id
      /\ run_within H 1 (aligned_alloc alignment size) w
         = Some (run H (aligned_alloc alignment size) w)
      /\ run_within H 0 (aligned_alloc alignment size) w = None)
  /\ (forall memblock,
        forwards (free memblock) (_aligned_free memblock) (fun _ => tt)
        /\ run_within H 1 (free memblock) w = Some (run H (free memblock) w)
        /\ run_within H 0 (free memblock) w = None)
  /\ (forall fd mode,
        forwards (fdopen fd mode) (_fdopen fd mode) id
        /\ run_within H 1 (fdopen fd mode) w = Some (run H (fdopen fd mode) w)
        /\ run_within H 0 (fdopen fd mode) w = None)
  /\ (forall cs,
        run_within H (length cs) (perform_all cs) w
        = Some (run H (perform_all cs) w)).
Proof.
  assert (Hbudget : forall (R : Type) (p : Prog R) c f,
             forwards p c f ->
             run_within H 1 p w = Some (run H p w) /\ run_within H 0 p w = None).
  { intros R p c f Hfwd.
    pose proof (calls_forwards H p c f w Hfwd) as Hcalls. split.
    - apply run_within_enough. now rewrite Hcalls.
    - apply run_within_short. rewrite Hcalls. simpl. lia. }
  split; [| split; [| split]].
  - intros alignment size. split; [apply aligned_alloc_forwards |].
    eapply Hbudget, aligned_alloc_forwards.
  - intros memblock. split; [apply free_forwards |].
    eapply Hbudget, free_forwards.
  - intros fd mode. split; [apply fdopen_forwards |].
    eapply Hbudget, fdopen_forwards.
  - intros cs. apply run_within_enough, calls_perform_all.
Qed.

(** ** Sequences of calls, continued *)

Section Scripts.
Context (H : Host).

Lemma run_bind_ret {A B : Type} (p : Prog A) (f : A -> B) (w : world H) :
  run H (bind p (fun a => Ret (f a))) w =
  match run H p w with
  | Returns a w' => Returns (f a) w'
  | Crashes => Crashes
  end.
Proof. rewrite run_bind. now destruct (run H p w). Qed.

Lemma calls_bind_ret {A B : Type} (p : Prog A) (f : A -> B) (w : world H) :
  calls H (bind p (fun a => Ret (f a))) w = calls H p w.
Proof.
  rewrite calls_bind. destruct (run H p w); simpl; apply app_nil_r.
Qed.

Lemma calls_perform_primitive (c : shim_call) (w : world H) :
  calls H (perform c) w = [primitive c].
Proof.
  destruct c as [alignment size | memblock | fd mode]; simpl;
    now destruct (crt H _ w).
Qed.

Lemma perform_all_cons (c : shim_call) (cs : list shim_call) :
  perform_all (c :: cs)
  = bind (perform c) (fun r => bind (perform_all cs) (fun rs => Ret (r :: rs))).
Proof. reflexivity. Qed.

(** The calls of a sequence are the primitives of its functions, in order,
    up to the first crash. *)
Lemma calls_perform_all_prefix (cs : list shim_call) (w : world H) :
  calls H (perform_all cs) w `prefix_of` (primitive <$> cs).
Proof.
  revert w. induction cs as [| c cs IH]; intros w.
  - apply prefix_nil.
  - rewrite perform_all_cons, calls_bind, calls_perform_primitive. simpl.
    apply prefix_cons.
    destruct (run H (perform c) w) as [r w' |]; [| apply prefix_nil].
    rewrite calls_bind_ret. apply IH.
Qed.

Lemma calls_perform_all_returns (cs : list shim_call) (w w' : world H) rs :
  run H (perform_all cs) w = Returns rs w' ->
  calls H (perform_all cs) w = primitive <$> cs /\ length rs = length cs.
Proof.
  revert w w' rs. induction cs as [| c cs IH]; intros w w' rs.
  - simpl. intros [= <- <-]. split; reflexivity.
  - rewrite perform_all_cons, calls_bind, calls_perform_primitive, run_bind.
    destruct (run H (perform c) w) as [r w1 |]; [| discriminate].
    rewrite calls_bind_ret, run_bind_ret.
    destruct (run H (perform_all cs) w1) as [rs1 w2 |] eqn:Hrest; [| discriminate].
    intros [= <- <-]. destruct (IH _ _ _ Hrest) as [-> Hlen].
    split; [reflexivity | simpl; now rewrite Hlen].
Qed.

End Scripts.

(** X1.  On every host, the runtime calls made by a sequence of calls of the
    three functions are the primitives of those functions, with the arguments
    as each body passes them and in the order of the sequence, up to the
    first call that crashes; when the sequence returns, every function call
    made exactly its one runtime call and gave one reply. *)
Theorem script_calls_are_the_primitives (H : Host) (cs : list shim_call) (w : world H) :
  calls H (perform_all cs) w `prefix_of` (primitive <$> cs)
  /\ (forall rs w',
        run H (perform_all cs) w = Returns rs w' ->
        calls H (perform_all cs) w = primitive <$> cs
        /\ length rs = length cs).
Proof.
  split; [apply calls_perform_all_prefix |].
  intros rs w'. apply calls_perform_all_returns.
Qed.

(** X2.  No sequence of calls of the three functions, on any host and from
    any state, ever calls the runtime's general-purpose [malloc] or [free]:
    every heap call goes to the aligned family. *)
Theorem scripts_never_call_the_general_heap (H : Host) (cs : list shim_call) (w : world H) :
  Forall (fun c => general_heap_call c = false) (calls H (perform_all cs) w).
Proof.
  destruct (calls_perform_all_prefix H cs w) as [rest Hrest].
  assert (Hall : Forall (fun c => general_heap_call c = false) (primitive <$> cs)).
  { apply Forall_fmap, Forall_forall. intros c _. now destruct c. }
  rewrite Hrest in Hall. now apply Forall_app in Hall as [Hcalls _].
Qed.

(** X3.  Releasing the result of a failed allocation is harmless: when
    [_aligned_malloc] returns null, on a host where [_aligned_free] of null
    is a no-op, [aligned_alloc] followed by [free] of its result returns,
    leaves the state the failed allocation left, and made the two calls
    [_aligned_malloc size alignment] and [_aligned_free NULL]. *)
Theorem free_after_failed_alloc (H : Host) (w w' : world H) (alignment size : size_t) :
  null_release_is_noop H (fun p => call (_aligned_free p)) ->
  crt H (_aligned_malloc size alignment) w = Returns NULL w' ->
  run H (p ← aligned_alloc alignment size; free p) w = Returns tt w'
  /\ calls H (p ← aligned_alloc alignment size; free p) w
     = [_aligned_malloc size alignment; _aligned_free NULL].
Proof.
  intros Hnoop Hfail. unfold mbind, Prog_bind.
  pose proof (run_aligned_alloc H alignment size w) as Halloc.
  rewrite Hfail in Halloc.
  specialize (Hnoop w'). cbv beta in Hnoop.
  rewrite (run_call H (_aligned_free NULL)) in Hnoop.
  split.
  - rewrite run_bind, Halloc, run_free. exact Hnoop.
  - rewrite calls_bind, Halloc.
    rewrite (calls_forwards H _ _ _ w (aligned_alloc_forwards alignment size)).
    now rewrite (calls_forwards H _ _ _ w' (free_forwards NULL)).
Qed.

(** An alignment that is no power of two on the reference runtime. *)
Lemma free_after_failed_alloc_witness :
  crt ModelCRT.host (_aligned_malloc 256 48) ModelCRT.boot = Returns NULL ModelCRT.boot
  /\ run ModelCRT.host (p ← aligned_alloc 48 256; free p) ModelCRT.boot
     = Returns tt ModelCRT.boot.
Proof.
  split; [vm_compute; reflexivity |].
  apply (free_after_failed_alloc ModelCRT.host ModelCRT.boot ModelCRT.boot 48 256).
  - exact ModelCRTFacts.aligned_free_null.
  - vm_compute. reflexivity.
Defined.
